(** * Telegram relay agent: a shallow embedding of [telegram_agent.py]

    The definitions follow the source file top to bottom:

    - [PyStr]: the string methods of Python the program calls
      ([split], [strip], [lower], [startswith], [in]);
    - [PromptConfig]: [load_prompt_config_from_txt], the parser of the
      sectioned prompt file;
    - [Store]: the two tables ([users], [messages]) and their statements;
    - [Agent]: [log_to_db] and [handle_new_message], written in a small
      state and exception monad over the store, the trace of the effects
      and the one local of the handler that its [except] block reads.

    - [PyMore] and [Init]: [join] and [os.path.dirname], and [init_db]
      over a database whose tables may be missing.

    [StrSpec], [PromptSpec], [AgentSpec] and [MoreSpec] hold the
    vocabulary of the properties, [Inputs] and [MoreInputs] the sample
    inputs; the properties come last.

    Text is a [string]; a character stands for a code point below 256.
    An exception is its class name and its [str()] text.  What the
    collaborators of the program answer (the store, the chat transport,
    the model) is not decided by the program: a record [world] gives the
    answer of each call of one run of the handler.  Runs of the handler
    are taken one after the other. *)

From Stdlib Require Import ZArith Ascii String List.
From stdpp Require Import base decidable option list strings gmap.

Local Open Scope string_scope.

(** ** Exceptions and results *)

Record exn := Exn { exn_class : string; exn_text : string }.

#[global] Instance exn_eq_dec : EqDecision exn.
Proof. solve_decision. Defined.

(** [str(e)] *)
Definition str_exn (e : exn) : string := exn_text e.

Inductive outcome (A : Type) : Type :=
  | Ok (a : A)
  | Raise (e : exn).
Arguments Ok {A} a.
Arguments Raise {A} e.

#[global] Instance outcome_ret : MRet outcome := fun _ a => Ok a.
#[global] Instance outcome_bind : MBind outcome := fun _ _ f m =>
  match m with
  | Ok a => f a
  | Raise e => Raise e
  end.


(** ** Python string methods *)

Module PyStr.

(** [str.isspace] on one character (code points below 256). *)
Definition isspace (c : ascii) : bool :=
  let n := nat_of_ascii c in
  (((9 <=? n) && (n <=? 13)) || ((28 <=? n) && (n <=? 32))
   || (n =? 133) || (n =? 160))%nat.

(** [str.lower] on one character: A-Z and the upper case letters of
    Latin-1 (all of 192..222 but the multiplication sign 215). *)
Definition lower_char (c : ascii) : ascii :=
  let n := nat_of_ascii c in
  if (((65 <=? n) && (n <=? 90))
      || ((192 <=? n) && (n <=? 222) && negb (n =? 215)))%nat
  then ascii_of_nat (n + 32) else c.

Fixpoint lower (s : string) : string :=
  match s with
  | "" => ""
  | String c s' => String (lower_char c) (lower s')
  end.

(** [s.split(sep)] for a separator of one character. *)
Fixpoint split (sep : ascii) (s : string) : list string :=
  match s with
  | "" => [""]
  | String c s' =>
      if decide (c = sep) then "" :: split sep s'
      else match split sep s' with
           | w :: ws => String c w :: ws
           | [] => [String c ""]
           end
  end.

(** [s.split(sep, 1)]: at most one cut, at the first separator. *)
Fixpoint split1 (sep : ascii) (s : string) : list string :=
  match s with
  | "" => [""]
  | String c s' =>
      if decide (c = sep) then [""; s']
      else match split1 sep s' with
           | w :: ws => String c w :: ws
           | [] => [String c ""]
           end
  end.

Fixpoint lstrip (s : string) : string :=
  match s with
  | "" => ""
  | String c s' => if isspace c then lstrip s' else s
  end.

Definition rstrip (s : string) : string :=
  String.rev (lstrip (String.rev s)).

(** [s.strip()] *)
Definition strip (s : string) : string := rstrip (lstrip s).

(** [s.startswith(p)] *)
Definition startswith (p s : string) : bool := String.prefix p s.

(** [needle in hay] *)
Fixpoint contains (needle hay : string) : bool :=
  String.prefix needle hay
  || match hay with
     | "" => false
     | String _ hay' => contains needle hay'
     end.

(** The truth value of an optional string ([None] and [''] are false). *)
Definition truthy (o : option string) : bool :=
  match o with
  | Some (String _ _) => true
  | _ => false
  end.

(** [o or ''] *)
Definition or_empty (o : option string) : string :=
  if truthy o then default "" o else "".

(** How an f-string renders an optional string. *)
Definition fmt (o : option string) : string := default "None" o.

(** [a, b = l] *)
Definition unpack2 (l : list string) : outcome (string * string) :=
  match l with
  | [a; b] => Ok (a, b)
  | [] => Raise (Exn "ValueError" "not enough values to unpack (expected 2, got 0)")
  | [_] => Raise (Exn "ValueError" "not enough values to unpack (expected 2, got 1)")
  | _ => Raise (Exn "ValueError" "too many values to unpack (expected 2)")
  end.

(** [l[i]] *)
Definition index (l : list string) (i : nat) : outcome string :=
  match l !! i with
  | Some x => Ok x
  | None => Raise (Exn "IndexError" "list index out of range")
  end.

End PyStr.

(** ** The prompt file *)

Module PromptConfig.
Import PyStr.

(** The triple [(system_prompt, personas, default_persona)]. *)
Definition prompt_config : Type := string * gmap string string * string.

(** The body of the [for] loop: one section updates the three locals. *)
Definition parse_section (acc : prompt_config) (section : string)
  : outcome prompt_config :=
  let '(system_prompt, personas, default_persona) := acc in
  '(header, body) ← unpack2 (split1 "]" section);
  let body := strip body in
  if decide (header = "system_prompt") then
    Ok (body, personas, default_persona)
  else if startswith "persona:" header then
    user ← index (split1 ":" header) 1;
    Ok (system_prompt, <[user := body]> personas, default_persona)
  else if decide (header = "default_persona") then
    Ok (system_prompt, personas, body)
  else Ok acc.

Fixpoint parse_sections (acc : prompt_config) (sections : list string)
  : outcome prompt_config :=
  match sections with
  | [] => Ok acc
  | section :: rest =>
      acc' ← parse_section acc section;
      parse_sections acc' rest
  end.

(** [content.split('[')[1:]] *)
Definition sections_of (content : string) : list string :=
  drop 1 (split "[" content).

(** [load_prompt_config_from_txt]; the argument is the content of
    [prompt_config.txt], [None] when the file does not exist. *)
Definition load_prompt_config_from_txt (file : option string)
  : outcome prompt_config :=
  match file with
  | None => Ok ("", ∅, "")
  | Some content => parse_sections ("", ∅, "") (sections_of content)
  end.

End PromptConfig.

(** ** The store *)

Module Store.

(** A row of [messages].  [timestamp] is the reading of the clock at the
    insert, in an integer unit. *)
Record message := Message {
  id : nat;
  direction : string;
  user_id : string;
  text : string;
  timestamp : Z;
  profile_pic_path : option string }.

(** [users] maps the primary key [user_id] to [blocked]; [next_id] is the
    sequence behind the SERIAL column of [messages]. *)
Record store := Store {
  users : gmap string bool;
  messages : list message;
  next_id : nat }.

(** [SELECT blocked FROM users WHERE user_id = %s], then
    [result and result['blocked']]. *)
Definition is_blocked (user_id : string) (st : store) : bool :=
  match users st !! user_id with
  | Some blocked => blocked
  | None => false
  end.

(** [INSERT INTO users (user_id, blocked) VALUES (%s, false)
     ON CONFLICT (user_id) DO NOTHING] *)
Definition upsert_user (user_id : string) (st : store) : store :=
  match users st !! user_id with
  | Some _ => st
  | None => Store (<[user_id := false]> (users st)) (messages st) (next_id st)
  end.

(** [INSERT INTO messages (direction, user_id, text, timestamp,
     profile_pic_path) VALUES (...)] *)
Definition insert_message (direction user_id text : string) (now : Z)
    (profile_pic_path : option string) (st : store) : store :=
  Store (users st)
        (messages st ++
           [Message (next_id st) direction user_id text now profile_pic_path])
        (S (next_id st)).

End Store.

(** ** The handler *)

Module Agent.
Import PyStr Store.

Record sender := Sender {
  username : option string;
  first_name : option string;
  last_name : option string }.

Record event := Event {
  is_private : bool;
  message_out : bool;
  sender_id : Z;
  event_text : string }.

(** [genai.GenerativeModel(name, system_instruction=...)] *)
Record gemini := GenerativeModel {
  model_name : string;
  system_instruction : string }.

(** The module-level names the handler reads. *)
Record globals := Globals {
  personas : gmap string string;
  default_persona : string;
  model : gemini;
  PROFILE_PICS_PATH : string }.

(** [config.get('gemini_model', 'gemini-1.5-flash')] *)
Definition GEMINI_MODEL (config : gmap string string) : string :=
  default "gemini-1.5-flash" (config !! "gemini_model").

(** [os.path.join(a, b)] (POSIX) and [s.replace(a, b)] on characters. *)
Definition path_join (a b : string) : string :=
  if startswith "/" b then b
  else if decide (a = "") then b
  else if startswith "/" (String.rev a) then a +:+ b
  else a +:+ "/" +:+ b.

Fixpoint replace_char (a b : ascii) (s : string) : string :=
  match s with
  | "" => ""
  | String c s' => String (if decide (c = a) then b else c) (replace_char a b s')
  end.

(** The module body between the two loaders and the handler: the prompt
    file is parsed and the model is built with the system prompt. *)
Definition startup (config : gmap string string) (dir : string)
    (prompt_file : option string) : outcome globals :=
  '(system_prompt, personas, default_persona) ←
     PromptConfig.load_prompt_config_from_txt prompt_file;
  Ok (Globals personas default_persona
        (GenerativeModel (GEMINI_MODEL config) system_prompt)
        (path_join (path_join (path_join dir "web_panel") "static")
           "profile_pics")).

(** What one run of the handler does to its collaborators, in order. *)
Inductive effect :=
  | EPrint (line : string)
  | EBlockQuery (user_id : string)
  | EUpsert (user_id : string)
  | EDownload (file : string)
  | ELogToDb (direction user_id text : string) (pic : option string)
  | ETyping (on : bool)
  | EGenerate (m : gemini) (prompt : string)
  | ERespond (text : string).

#[global] Instance gemini_eq_dec : EqDecision gemini.
Proof. solve_decision. Defined.
#[global] Instance effect_eq_dec : EqDecision effect.
Proof. solve_decision. Defined.

(** What the collaborators answer during one run. *)
Record world := World {
  w_get_sender : outcome (option sender);
  w_db_connect : outcome unit;
  w_db_select : outcome unit;
  w_db_upsert : outcome unit;
  w_download : outcome (option string);
  w_log_in : outcome Z;
  w_typing_enter : outcome unit;
  w_generate : outcome string;
  w_respond_reply : outcome unit;
  w_log_out : outcome Z;
  w_typing_exit : outcome unit;
  w_log_error : outcome Z;
  w_respond_apology : outcome unit }.

(** The state of a run: the store, the trace so far, and the local
    [profile_pic_rel_path] of the handler's frame ([None]: not bound). *)
Record machine := Machine {
  m_store : store;
  m_trace : list effect;
  m_pic : option (option string) }.

Definition M (A : Type) : Type := machine → machine * outcome A.

#[global] Instance M_ret : MRet M := fun _ a σ => (σ, Ok a).
#[global] Instance M_bind : MBind M := fun _ _ f m σ =>
  match m σ with
  | (σ', Ok a) => f a σ'
  | (σ', Raise e) => (σ', Raise e)
  end.

Definition raise {A} (e : exn) : M A := fun σ => (σ, Raise e).

(** The answer of a collaborator. *)
Definition answer {A} (o : outcome A) : M A := fun σ => (σ, o).

Definition emit (e : effect) : M unit := fun σ =>
  (Machine (m_store σ) (m_trace σ ++ [e]) (m_pic σ), Ok tt).

Definition get_store : M store := fun σ => (σ, Ok (m_store σ)).

Definition modify_store (f : store → store) : M unit := fun σ =>
  (Machine (f (m_store σ)) (m_trace σ) (m_pic σ), Ok tt).

(** [profile_pic_rel_path = v] *)
Definition bind_pic (v : option string) : M unit := fun σ =>
  (Machine (m_store σ) (m_trace σ) (Some v), Ok tt).

(** What reading a local that is not bound raises. *)
Definition unbound_pic : exn :=
  Exn "UnboundLocalError"
    "cannot access local variable 'profile_pic_rel_path' where it is not associated with a value".

(** Reading the local [profile_pic_rel_path]. *)
Definition read_pic : M (option string) := fun σ =>
  match m_pic σ with
  | Some v => (σ, Ok v)
  | None => (σ, Raise unbound_pic)
  end.

(** [try: body except Exception as e: handler e] *)
Definition try_except {A} (body : M A) (handler : exn → M A) : M A :=
  fun σ =>
    match body σ with
    | (σ', Ok a) => (σ', Ok a)
    | (σ', Raise e) => handler e σ'
    end.

(** Leaving an [async with] block: the exit runs whether the body
    returns or raises; what it raises replaces what the body raised. *)
Definition leaving {A} (exit : M unit) (body : M A) : M A := fun σ =>
  match body σ with
  | (σ', r) =>
      match exit σ' with
      | (σ'', Ok _) => (σ'', r)
      | (σ'', Raise e) => (σ'', Raise e)
      end
  end.

(** [async with client.action(chat, 'typing'): body] *)
Definition async_with_action {A} (enter exit : outcome unit) (body : M A)
  : M A :=
  _ ← answer enter;
  _ ← emit (ETyping true);
  leaving (_ ← answer exit; emit (ETyping false)) body.

Definition print (line : string) : M unit := emit (EPrint line).

(** [log_to_db]: [ans] is what the store answers to the connection, the
    insert and the commit; a failure is printed and swallowed. *)
Definition log_to_db (ans : outcome Z)
    (direction user_id text : string) (profile_pic_path : option string)
  : M unit :=
  _ ← emit (ELogToDb direction user_id text profile_pic_path);
  match ans with
  | Ok now =>
      modify_store (insert_message direction user_id text now profile_pic_path)
  | Raise e => print ("Database error in log_to_db: " +:+ str_exn e)
  end.

Definition apology : string :=
  "Sorry, something went wrong while processing your request.".

(** Lines 147-150. *)
Definition user_identifier_of (s : sender) : string :=
  if truthy (username s) then default "" (username s)
  else strip (fmt (first_name s) +:+ " " +:+ or_empty (last_name s)).

(** [sender.username] on what [get_sender] returned. *)
Definition deref_sender (s : option sender) : M sender :=
  match s with
  | Some s => mret s
  | None => raise (Exn "AttributeError"
                     "'NoneType' object has no attribute 'username'")
  end.

Section Handler.
Context (g : globals) (w : world) (ev : event).

(** The body of the [try]. *)
Definition try_body (user_identifier : string) : M unit :=
  _ ← answer (w_db_connect w);
  _ ← emit (EBlockQuery user_identifier);
  _ ← answer (w_db_select w);
  st ← get_store;
  if is_blocked user_identifier st then
    print ("Ignoring message from blocked user: " +:+ user_identifier)
  else
    _ ← emit (EUpsert user_identifier);
    _ ← answer (w_db_upsert w);
    _ ← modify_store (upsert_user user_identifier);
    let profile_pic_filename := user_identifier +:+ ".jpg" in
    let profile_pic_abs_path :=
      path_join (PROFILE_PICS_PATH g) profile_pic_filename in
    _ ← emit (EDownload profile_pic_abs_path);
    downloaded_path ← answer (w_download w);
    _ ← bind_pic
          (if truthy downloaded_path
           then Some (replace_char "\" "/"
                        (path_join "profile_pics" profile_pic_filename))
           else None);
    profile_pic_rel_path ← read_pic;
    let message_text := event_text ev in
    _ ← print ("Received message from " +:+ user_identifier +:+ ": "
                 +:+ message_text);
    _ ← log_to_db (w_log_in w) "in" user_identifier message_text
          profile_pic_rel_path;
    async_with_action (w_typing_enter w) (w_typing_exit w)
      (let persona :=
         default (default_persona g) (personas g !! user_identifier) in
       let prompt := persona +:+ String "010" (String "010" message_text) in
       _ ← emit (EGenerate (model g) prompt);
       gemini_response ← answer (w_generate w);
       _ ← emit (ERespond gemini_response);
       _ ← answer (w_respond_reply w);
       _ ← print ("Sent response to " +:+ user_identifier +:+ ": "
                    +:+ gemini_response);
       profile_pic_rel_path ← read_pic;
       log_to_db (w_log_out w) "out" user_identifier gemini_response
         profile_pic_rel_path).

(** The [except Exception as e] block. *)
Definition except_block (user_identifier : string) (e : exn) : M unit :=
  let error_message :=
    "An error occurred in handle_new_message: " +:+ str_exn e in
  _ ← print error_message;
  _ ← (if negb (contains "database" (lower (str_exn e))) then
         profile_pic_rel_path ← read_pic;
         log_to_db (w_log_error w) "out" user_identifier error_message
           profile_pic_rel_path
       else mret tt);
  _ ← emit (ERespond apology);
  answer (w_respond_apology w).

Definition handle_new_message : M unit :=
  if is_private ev && negb (message_out ev) then
    sender ← answer (w_get_sender w);
    sender ← deref_sender sender;
    let user_identifier := user_identifier_of sender in
    try_except (try_body user_identifier) (except_block user_identifier)
  else mret tt.

End Handler.

(** One run of the handler in a fresh frame: the store after it, the
    effects in order, and whether the handler returned or raised. *)
Definition run (g : globals) (w : world) (ev : event) (st : store)
  : store * list effect * outcome unit :=
  let '(σ, r) := handle_new_message g w ev (Machine st [] None) in
  (m_store σ, m_trace σ, r).

(** The events of an inbox handled one after the other. *)
Fixpoint serve (g : globals) (inbox : list (world * event)) (st : store)
  : store :=
  match inbox with
  | [] => st
  | (w, ev) :: rest => serve g rest (run g w ev st).1.1
  end.

End Agent.

(** ** Vocabulary of the properties: strings *)

Module StrSpec.
Import PyStr.

(** [c in s] for one character. *)
Fixpoint in_char (c : ascii) (s : string) : bool :=
  match s with
  | "" => false
  | String c' s' => if decide (c' = c) then true else in_char c s'
  end.

(** Blank strings, and the two ends of a string. *)
Fixpoint blank (s : string) : bool :=
  match s with
  | "" => true
  | String c s' => isspace c && blank s'
  end.

Definition head_char (s : string) : option ascii :=
  match s with
  | "" => None
  | String c _ => Some c
  end.

Definition last_char (s : string) : option ascii := head_char (String.rev s).

End StrSpec.

(** ** Vocabulary of the properties: the prompt file *)

Module PromptSpec.
Import PyStr PromptConfig.

(** A section cut at its first closing bracket: header and body. *)
Definition header_body (section : string) : option (string * string) :=
  match split1 "]" section with
  | [header; body] => Some (header, body)
  | _ => None
  end.


End PromptSpec.

(** ** Vocabulary of the properties: the handler *)

Module AgentSpec.
Import PyStr Store Agent.

(** The four effects whose order matters. *)
Inductive kind := LogIn | ModelCall | ReplySend | LogOut.

#[global] Instance kind_eq_dec : EqDecision kind.
Proof. solve_decision. Defined.

Definition kind_of (e : effect) : option kind :=
  match e with
  | ELogToDb d _ _ _ => Some (if decide (d = "in") then LogIn else LogOut)
  | EGenerate _ _ => Some ModelCall
  | ERespond _ => Some ReplySend
  | _ => None
  end.

Definition kinds (t : list effect) : list kind := omap kind_of t.

(** Every [a] of the list comes before every [b]. *)
Definition precedes (a b : kind) (ks : list kind) : Prop :=
  ∀ i j, ks !! i = Some a → ks !! j = Some b → i < j.

(** "Inbound-log precedes model-call precedes outbound-log precedes
    reply-send." *)
Definition log_call_log_send (ks : list kind) : Prop :=
  precedes LogIn ModelCall ks ∧ precedes ModelCall LogOut ks
  ∧ precedes LogOut ReplySend ks.

(** The rows a run added to [messages]. *)
Definition appended (st st' : store) : list message :=
  drop (List.length (messages st)) (messages st').


Definition model_called (t : list effect) : Prop :=
  ∃ m prompt, EGenerate m prompt ∈ t.

Definition no_reply (t : list effect) : Prop :=
  ∀ text, ERespond text ∉ t.


(** "Zero rows appended, no users-table write, no reply sent." *)
Definition suppressed (st : store)
    (r : store * list effect * outcome unit) : Prop :=
  messages r.1.1 = messages st ∧ users r.1.1 = users st ∧ no_reply r.1.2.

(** "No exception escapes the handler, and the apology is sent." *)
Definition contained (r : store * list effect * outcome unit) : Prop :=
  r.2 = Ok tt ∧ ERespond apology ∈ r.1.2.

(** The calls of the model in a trace: the handle and the prompt. *)
Definition model_calls (t : list effect) : list (gemini * string) :=
  omap (λ e, match e with EGenerate m p => Some (m, p) | _ => None end) t.

(** The prompt of line 188. *)
Definition prompt_for (g : globals) (user_identifier message_text : string)
  : string :=
  default (default_persona g) (personas g !! user_identifier)
  +:+ String "010" (String "010" "") +:+ message_text.

(** The path recorded with both rows of one exchange. *)
Definition pic_of (user_identifier : string) (downloaded : option string)
  : option string :=
  if truthy downloaded
  then Some (replace_char "\" "/"
               (path_join "profile_pics" (user_identifier +:+ ".jpg")))
  else None.

Definition diagnostic (e : exn) : string :=
  "An error occurred in handle_new_message: " +:+ str_exn e.



End AgentSpec.

(** ** Sample inputs *)

Module Inputs.
Import Store Agent.

Definition ada : sender := Sender (Some "ada99") (Some "Ada") None.

Definition g0 : globals :=
  Globals {[ "ada99" := "Be terse." ]} "Be kind."
    (GenerativeModel "gemini-1.5-flash" "You are a relay.")
    "/app/web_panel/static/profile_pics".

(** The prompt file that gives [g0]. *)
Definition prompt_file0 : string :=
  "[system_prompt]You are a relay.[persona:ada99]Be terse.[default_persona]Be kind.".

Definition ev0 : event := Event true false 7 "hi".

Definition st0 : store := Store ∅ [] 1.

(** A store in which [ada99] is blocked. *)
Definition st_blocked : store := Store {[ "ada99" := true ]} [] 1.

(** Every collaborator answers. *)
Definition w_ok : world :=
  World (Ok (Some ada)) (Ok tt) (Ok tt) (Ok tt) (Ok (Some "/app/ada99.jpg"))
    (Ok 100%Z) (Ok tt) (Ok "hello") (Ok tt) (Ok 101%Z) (Ok tt) (Ok 102%Z)
    (Ok tt).

(** The store refuses the connection of the block check. *)
Definition w_no_store : world :=
  World (Ok (Some ada))
    (Raise (Exn "OperationalError" "FATAL:  the database system is starting up"))
    (Ok tt) (Ok tt) (Ok (Some "/app/ada99.jpg"))
    (Ok 100%Z) (Ok tt) (Ok "hello") (Ok tt) (Ok 101%Z) (Ok tt) (Ok 102%Z)
    (Ok tt).

(** The download of the profile photo fails. *)
Definition w_no_photo : world :=
  World (Ok (Some ada)) (Ok tt) (Ok tt) (Ok tt)
    (Raise (Exn "TimeoutError" "timed out"))
    (Ok 100%Z) (Ok tt) (Ok "hello") (Ok tt) (Ok 101%Z) (Ok tt) (Ok 102%Z)
    (Ok tt).

(** The model fails, with a text that mentions a database. *)
Definition w_model_database : world :=
  World (Ok (Some ada)) (Ok tt) (Ok tt) (Ok tt) (Ok (Some "/app/ada99.jpg"))
    (Ok 100%Z) (Ok tt)
    (Raise (Exn "InternalServerError" "500 Vector DATABASE unavailable"))
    (Ok tt) (Ok 101%Z) (Ok tt) (Ok 102%Z) (Ok tt).

(** The model fails, with another text. *)
Definition w_model_quota : world :=
  World (Ok (Some ada)) (Ok tt) (Ok tt) (Ok tt) (Ok (Some "/app/ada99.jpg"))
    (Ok 100%Z) (Ok tt)
    (Raise (Exn "ResourceExhausted" "429 quota exceeded"))
    (Ok tt) (Ok 101%Z) (Ok tt) (Ok 102%Z) (Ok tt).

End Inputs.

(** ** More of Python: [join], [count], [os.path.dirname] *)

Module PyMore.
Import PyStr.

(** [sep.join(l)] for a separator of one character. *)
Fixpoint join (sep : ascii) (l : list string) : string :=
  match l with
  | [] => ""
  | x :: rest =>
      match rest with
      | [] => x
      | _ :: _ => x +:+ String sep (join sep rest)
      end
  end.

(** [s.count(c)] *)
Fixpoint count_char (c : ascii) (s : string) : nat :=
  match s with
  | "" => 0
  | String c' s' => (if decide (c' = c) then 1 else 0) + count_char c s'
  end.

(** The part of a string from its first slash on, and a string without
    its leading slashes. *)
Fixpoint from_slash (s : string) : string :=
  match s with
  | "" => ""
  | String c s' => if decide (c = "/"%char) then s else from_slash s'
  end.

Fixpoint lstrip_slash (s : string) : string :=
  match s with
  | "" => ""
  | String c s' => if decide (c = "/"%char) then lstrip_slash s' else s
  end.

(** [os.path.dirname(p)] (POSIX): [head = p[:p.rfind('/') + 1]], without
    its trailing slashes unless it is made of slashes only. *)
Definition dirname (p : string) : string :=
  let head := String.rev (from_slash (String.rev p)) in
  if decide (head = "") then head
  else if decide (lstrip_slash head = "") then head
  else String.rev (lstrip_slash (String.rev head)).

End PyMore.

(** ** The start of the process: [init_db] *)

Module Init.
Import PyStr Store PyMore.

(** The database before the agent serves: a table may be absent.  The
    table [messages] comes with the sequence of its SERIAL column. *)
Record database := Database {
  tbl_messages : option (list message * nat);
  tbl_users : option (gmap string bool) }.

(** The store the handler works on, when both tables are there. *)
Definition store_of (db : database) : option store :=
  match tbl_messages db, tbl_users db with
  | Some (rows, seq), Some us => Some (Store us rows seq)
  | _, _ => None
  end.

Inductive init_effect :=
  | IPrint (line : string)
  | IMakedirs (path : string)
  | IConnect
  | IProbe (table : string)
  | ICreate (table : string)
  | ICommit.

#[global] Instance init_effect_eq_dec : EqDecision init_effect.
Proof. solve_decision. Defined.

(** What the file system and the store answer during [init_db]. *)
Record init_world := InitWorld {
  i_exists : bool;
  i_makedirs : outcome unit;
  i_connect : outcome unit;
  i_probe_messages : outcome unit;
  i_create_messages : outcome unit;
  i_probe_users : outcome unit;
  i_create_users : outcome unit;
  i_commit : outcome unit }.

(** The state of [init_db]: the database as committed, the database as
    the open transaction sees it, and the trace. *)
Record init_state := InitState {
  i_db : database;
  i_tx : database;
  i_trace : list init_effect }.

Definition I (A : Type) : Type := init_state → init_state * outcome A.

#[global] Instance I_ret : MRet I := fun _ a σ => (σ, Ok a).
#[global] Instance I_bind : MBind I := fun _ _ f m σ =>
  match m σ with
  | (σ', Ok a) => f a σ'
  | (σ', Raise e) => (σ', Raise e)
  end.

Definition iraise {A} (e : exn) : I A := fun σ => (σ, Raise e).

Definition ianswer {A} (o : outcome A) : I A := fun σ => (σ, o).

Definition iemit (e : init_effect) : I unit := fun σ =>
  (InitState (i_db σ) (i_tx σ) (i_trace σ ++ [e]), Ok tt).

Definition iprint (line : string) : I unit := iemit (IPrint line).

Definition get_tx : I database := fun σ => (σ, Ok (i_tx σ)).

Definition set_tx (db : database) : I unit := fun σ =>
  (InitState (i_db σ) db (i_trace σ), Ok tt).

(** [conn.commit()], once the store has taken it. *)
Definition committed : I unit := fun σ =>
  (InitState (i_tx σ) (i_tx σ) (i_trace σ), Ok tt).

Definition itry_except {A} (body : I A) (handler : exn → I A) : I A :=
  fun σ =>
    match body σ with
    | (σ', Ok a) => (σ', Ok a)
    | (σ', Raise e) => handler e σ'
    end.

(** [exit()] *)
Definition system_exit : exn := Exn "SystemExit" "None".

(** [init_db]; [DATABASE_URL] is [os.environ.get('DATABASE_URL')]. *)
Definition init_db (DATABASE_URL : option string)
    (PROFILE_PICS_PATH : string) (w : init_world) : I unit :=
  let db_dir := dirname PROFILE_PICS_PATH in
  _ ← (if negb (i_exists w) then
         _ ← iemit (IMakedirs db_dir);
         ianswer (i_makedirs w)
       else mret tt);
  if negb (truthy DATABASE_URL) then
    _ ← iprint "Error: DATABASE_URL environment variable not set.";
    iraise system_exit
  else
    itry_except
      (_ ← iemit IConnect;
       _ ← ianswer (i_connect w);
       _ ← iemit (IProbe "messages");
       _ ← ianswer (i_probe_messages w);
       db ← get_tx;
       _ ← (match tbl_messages db with
            | None =>
                _ ← iprint "Creating messages table...";
                _ ← iemit (ICreate "messages");
                _ ← ianswer (i_create_messages w);
                set_tx (Database (Some ([], 1)) (tbl_users db))
            | Some _ => mret tt
            end);
       _ ← iemit (IProbe "users");
       _ ← ianswer (i_probe_users w);
       db ← get_tx;
       _ ← (match tbl_users db with
            | None =>
                _ ← iprint "Creating users table...";
                _ ← iemit (ICreate "users");
                _ ← ianswer (i_create_users w);
                set_tx (Database (tbl_messages db) (Some ∅))
            | Some _ => mret tt
            end);
       _ ← iemit ICommit;
       _ ← ianswer (i_commit w);
       _ ← committed;
       iprint "Database initialized successfully.")
      (fun e =>
         _ ← iprint ("Error initializing database: " +:+ str_exn e);
         iraise system_exit).

(** One call of [init_db]: the database as committed after it, the
    effects in order, and whether it returned. *)
Definition run_init (DATABASE_URL : option string)
    (PROFILE_PICS_PATH : string) (w : init_world) (db : database)
  : database * list init_effect * outcome unit :=
  let '(σ, r) :=
    init_db DATABASE_URL PROFILE_PICS_PATH w (InitState db db []) in
  (i_db σ, i_trace σ, r).

End Init.

(** ** More vocabulary of the properties *)

Module MoreSpec.
Import PyStr Store Agent.





(** The texts a run hands to [event.respond], in order. *)
Definition sends (t : list effect) : list string :=
  omap (λ e, match e with ERespond text => Some text | _ => None end) t.

(** The typing indicator and the model call in a trace. *)
Inductive mark := TypingOn | TypingOff | Call.

#[global] Instance mark_eq_dec : EqDecision mark.
Proof. solve_decision. Defined.

Definition mark_of (e : effect) : option mark :=
  match e with
  | ETyping true => Some TypingOn
  | ETyping false => Some TypingOff
  | EGenerate _ _ => Some Call
  | _ => None
  end.

Definition marks (t : list effect) : list mark := omap mark_of t.

(** The primary key of [messages]: the ids are distinct and below the
    next value of the sequence. *)
Definition ids_ok (st : store) : Prop :=
  NoDup (id <$> messages st)
  ∧ Forall (λ m, id m < next_id st) (messages st).

(** Every row of [messages] names a user of [users]. *)
Definition refs_ok (st : store) : Prop :=
  Forall (λ m, is_Some (users st !! user_id m)) (messages st).



End MoreSpec.

(** ** More sample inputs *)

Module MoreInputs.
Import Store Agent Init Inputs.

(** The file system and the store answer every call of [init_db]. *)
Definition iw_ok : init_world :=
  InitWorld false (Ok tt) (Ok tt) (Ok tt) (Ok tt) (Ok tt) (Ok tt) (Ok tt).

(** A database with the table [users] only, and an empty one. *)
Definition db_users_only : database :=
  Database None (Some {[ "ada99" := true ]}).

Definition db_empty : database := Database None None.

Definition url0 : option string := Some "postgresql://agent@db/relay".


End MoreInputs.

(** * Properties *)

(** ** Strings *)

Module PyStrFacts.
Import PyStr StrSpec.

Lemma app_String c s t : String c s +:+ t = String c (s +:+ t).
Proof. reflexivity. Qed.

Lemma app_empty_l s : "" +:+ s = s.
Proof. reflexivity. Qed.

Lemma prefix_app p s : String.prefix p (p +:+ s) = true.
Proof.
  induction p as [|c p IH]; [by destruct s|].
  rewrite app_String. simpl. by destruct (ascii_dec c c).
Qed.

Lemma prefix_inv p s : String.prefix p s = true → ∃ t, s = p +:+ t.
Proof.
  revert s. induction p as [|c p IH]; intros s H; [by exists s|].
  destruct s as [|c' s]; [done|]. simpl in H.
  destruct (ascii_dec c c') as [->|]; [|done].
  destruct (IH _ H) as [t ->]. by exists t.
Qed.

Lemma contains_prefix needle hay :
  String.prefix needle hay = true → contains needle hay = true.
Proof. intros H. destruct hay; cbn [contains]; by rewrite H. Qed.

Lemma contains_app needle pre post :
  contains needle (pre +:+ needle +:+ post) = true.
Proof.
  induction pre as [|c pre IH].
  - rewrite app_empty_l. apply contains_prefix, prefix_app.
  - rewrite app_String. cbn [contains]. rewrite IH. apply orb_true_r.
Qed.

Lemma lower_app s t : lower (s +:+ t) = lower s +:+ lower t.
Proof.
  induction s as [|c s IH]; [done|].
  rewrite app_String. simpl. by rewrite IH.
Qed.

(** A string without the separator is not cut; one with it is cut in two. *)
Lemma split1_length sep s :
  length (split1 sep s) = if in_char sep s then 2 else 1.
Proof.
  induction s as [|c s IH]; [done|]. simpl.
  destruct (decide (c = sep)); [done|].
  destruct (split1 sep s) as [|w ws]; simpl in *; [by destruct (in_char sep s)|done].
Qed.


Lemma split_app_sep sep h t :
  in_char sep h = false → split sep (h +:+ String sep t) = h :: split sep t.
Proof.
  induction h as [|c h IH]; intros H.
  - rewrite app_empty_l. simpl. by rewrite decide_True.
  - rewrite app_String. simpl in *. destruct (decide (c = sep)); [done|].
    by rewrite IH.
Qed.

Lemma split_no_sep sep s : in_char sep s = false → split sep s = [s].
Proof.
  induction s as [|c s IH]; intros H; [done|]. simpl in *.
  destruct (decide (c = sep)); [done|]. by rewrite IH.
Qed.

Lemma split1_persona h :
  startswith "persona:" h = true →
  ∃ user, h = "persona:" +:+ user ∧ split1 ":" h = ["persona"; user].
Proof.
  intros H. destruct (prefix_inv _ _ H) as [user ->]. by exists user.
Qed.

Lemma app_assoc_s s t u : (s +:+ t) +:+ u = s +:+ t +:+ u.
Proof. induction s as [|c s IH]; [done|]. by rewrite !app_String, IH. Qed.

Lemma app_empty_r s : s +:+ "" = s.
Proof. induction s as [|c s IH]; [done|]. by rewrite app_String, IH. Qed.

Lemma rev_app_spec s : ∀ t, String.rev_app s t = String.rev s +:+ t.
Proof.
  induction s as [|c s IH]; intros t; [done|].
  unfold String.rev. simpl. rewrite (IH (String c t)), (IH (String c "")).
  by rewrite app_assoc_s.
Qed.

Lemma rev_String c s : String.rev (String c s) = String.rev s +:+ String c "".
Proof. unfold String.rev at 1. simpl. apply rev_app_spec. Qed.

Lemma rev_app_distr s t :
  String.rev (s +:+ t) = String.rev t +:+ String.rev s.
Proof.
  induction s as [|c s IH]; [by rewrite app_empty_l, app_empty_r|].
  by rewrite app_String, !rev_String, IH, app_assoc_s.
Qed.

Lemma rev_involutive s : String.rev (String.rev s) = s.
Proof.
  induction s as [|c s IH]; [done|].
  by rewrite rev_String, rev_app_distr, IH.
Qed.

Lemma blank_app s t : blank (s +:+ t) = blank s && blank t.
Proof.
  induction s as [|c s IH]; [done|]. rewrite app_String. simpl.
  by rewrite IH, andb_assoc.
Qed.

Lemma blank_rev s : blank (String.rev s) = blank s.
Proof.
  induction s as [|c s IH]; [done|]. rewrite rev_String, blank_app, IH.
  simpl. by rewrite andb_true_r, andb_comm.
Qed.

Lemma lstrip_split s : ∃ l, s = l +:+ lstrip s ∧ blank l = true.
Proof.
  induction s as [|c s (l & Hl & Hb)]; [by exists ""|]. simpl.
  destruct (isspace c) eqn:Hc; [|by exists ""].
  exists (String c l). rewrite app_String, <- Hl. simpl. by rewrite Hc.
Qed.

Lemma lstrip_head s c : head_char (lstrip s) = Some c → isspace c = false.
Proof.
  induction s as [|c' s IH]; [done|]. simpl.
  destruct (isspace c') eqn:Hc; [done|]. simpl. by intros [= <-].
Qed.

Lemma rstrip_split s : ∃ r, s = rstrip s +:+ r ∧ blank r = true.
Proof.
  destruct (lstrip_split (String.rev s)) as (l & Hl & Hb).
  exists (String.rev l). split; [|by rewrite blank_rev].
  unfold rstrip. by rewrite <- rev_app_distr, <- Hl, rev_involutive.
Qed.

Lemma rstrip_last s c : last_char (rstrip s) = Some c → isspace c = false.
Proof. unfold last_char, rstrip. rewrite rev_involutive. apply lstrip_head. Qed.

Lemma head_char_app s t c :
  head_char s = Some c → head_char (s +:+ t) = Some c.
Proof. by destruct s. Qed.

(** [strip] cuts blanks, and only blanks, from both ends. *)
Lemma strip_trimmed s :
  ∃ l r, s = l +:+ strip s +:+ r ∧ blank l = true ∧ blank r = true
    ∧ (∀ c, head_char (strip s) = Some c → isspace c = false)
    ∧ (∀ c, last_char (strip s) = Some c → isspace c = false).
Proof.
  destruct (lstrip_split s) as (l & Hl & Hbl).
  destruct (rstrip_split (lstrip s)) as (r & Hr & Hbr).
  exists l, r. unfold strip. repeat split; try done.
  - by rewrite <- Hr.
  - intros c Hc. apply (lstrip_head s). rewrite Hr. by apply head_char_app.
  - apply rstrip_last.
Qed.


End PyStrFacts.

(** ** The prompt file *)

Module PromptFacts.
Import PyStr PromptConfig StrSpec PromptSpec PyStrFacts.

Lemma header_body_unpack section h b :
  header_body section = Some (h, b) → unpack2 (split1 "]" section) = Ok (h, b).
Proof.
  unfold header_body. destruct (split1 "]" section) as [|x [|y [|z l]]]; naive_solver.
Qed.

Lemma header_body_None section :
  in_char "]" section = false →
  unpack2 (split1 "]" section)
  = Raise (Exn "ValueError" "not enough values to unpack (expected 2, got 1)").
Proof.
  intros H. pose proof (split1_length "]" section) as L. rewrite H in L.
  by destruct (split1 "]" section) as [|x [|y l]].
Qed.




(** Only the unpacking of a section can fail. *)
Lemma parse_section_raises acc section e :
  parse_section acc section = Raise e → exn_class e = "ValueError".
Proof.
  destruct acc as [[sp ps] dp]. unfold parse_section.
  destruct (split1 "]" section) as [|x [|y [|z l]]]; simpl;
    try (intros; by simplify_eq).
  destruct (decide (x = "system_prompt")); [done|].
  destruct (startswith "persona:" x) eqn:Hp.
  - by destruct (split1_persona _ Hp) as (u & -> & ->).
  - by case_decide.
Qed.

Lemma parse_sections_unclosed sections section : ∀ acc,
  section ∈ sections → in_char "]" section = false →
  ∃ e, parse_sections acc sections = Raise e ∧ exn_class e = "ValueError".
Proof.
  induction sections as [|x rest IH]; intros acc Hin Hno; [by inversion Hin|].
  simpl. destruct (parse_section acc x) as [acc'|e] eqn:Hx.
  - simpl. apply IH; [|done]. apply elem_of_cons in Hin as [->|]; [|done].
    destruct acc as [[sp ps] dp]. unfold parse_section in Hx.
    by rewrite header_body_None in Hx.
  - exists e. split; [done|]. by eapply parse_section_raises.
Qed.

(** The half of C4 that holds: what stands before the first opening
    bracket is dropped, and a file without any bracket gives the empty
    configuration. *)
Lemma preamble_ignored pre rest :
  in_char "[" pre = false →
  load_prompt_config_from_txt (Some (pre +:+ String "[" rest))
  = load_prompt_config_from_txt (Some (String "[" rest)).
Proof.
  intros H. unfold load_prompt_config_from_txt, sections_of.
  rewrite (split_app_sep _ _ _ H).
  change (String "[" rest) with ("" +:+ String "[" rest).
  by rewrite (split_app_sep "[" "" rest).
Qed.

Lemma no_header_empty content :
  in_char "[" content = false →
  load_prompt_config_from_txt (Some content) = Ok ("", ∅, "").
Proof.
  intros H. unfold load_prompt_config_from_txt, sections_of.
  by rewrite (split_no_sep _ _ H).
Qed.

(** C4 (the code breaks it): a section whose header has no closing
    bracket is not skipped.  Its unpacking raises [ValueError], and the
    loader returns nothing. *)
Theorem unclosed_header_raises content section :
  section ∈ sections_of content → in_char "]" section = false →
  ∃ e, load_prompt_config_from_txt (Some content) = Raise e
       ∧ exn_class e = "ValueError".
Proof. intros Hin Hno. by apply (parse_sections_unclosed _ section). Qed.

Lemma unclosed_header_raises_witness :
  ∃ e, load_prompt_config_from_txt (Some "[system_prompt]A[persona:bob")
       = Raise e
       ∧ exn_class e = "ValueError".
Proof.
  apply (unclosed_header_raises "[system_prompt]A[persona:bob" "persona:bob");
    [right; left | reflexivity].
Defined.



(** The example of the spec, and a repeated persona. *)
Example load_prompt_config_example :
  load_prompt_config_from_txt
    (Some "[system_prompt]A[persona:bob]B[default_persona]C")
  = Ok ("A", {[ "bob" := "B" ]}, "C").
Proof. vm_compute. reflexivity. Qed.

Example load_prompt_config_twice :
  load_prompt_config_from_txt (Some "[persona:bob] B [persona:bob] D ")
  = Ok ("", {[ "bob" := "D" ]}, "").
Proof. vm_compute. reflexivity. Qed.

End PromptFacts.

(** ** The handler *)

Module AgentFacts.
Import PyStr Store Agent StrSpec AgentSpec Inputs PyStrFacts.

Ltac unfold_handler :=
  unfold run, handle_new_message, try_except, try_body, except_block,
    async_with_action, leaving, log_to_db, print, emit, answer, get_store,
    modify_store, bind_pic, read_pic, deref_sender, raise,
    mbind, M_bind, mret, M_ret in *.

Ltac reduce_handler :=
  cbn [m_store m_trace m_pic fst snd List.app negb andb] in *.

(** One case split, on the first collaborator (in program order) whose
    answer the rest of the run still depends on. *)
Ltac next_answer :=
  reduce_handler;
  first
  [ match goal with |- context [is_private ?ev && negb (message_out ?ev)] =>
      destruct (is_private ev && negb (message_out ev)) eqn:? end
  | match goal with |- context [w_get_sender ?w] =>
      destruct (w_get_sender w) as [[?|]|?] eqn:? end
  | match goal with |- context [w_db_connect ?w] =>
      destruct (w_db_connect w) as [[]|?] eqn:? end
  | match goal with |- context [w_db_select ?w] =>
      destruct (w_db_select w) as [[]|?] eqn:? end
  | match goal with |- context [is_blocked ?u ?st] =>
      destruct (is_blocked u st) eqn:? end
  | match goal with |- context [w_db_upsert ?w] =>
      destruct (w_db_upsert w) as [[]|?] eqn:? end
  | match goal with |- context [w_download ?w] =>
      destruct (w_download w) as [?|?] eqn:? end
  | match goal with |- context [w_log_in ?w] =>
      destruct (w_log_in w) as [?|?] eqn:? end
  | match goal with |- context [w_typing_enter ?w] =>
      destruct (w_typing_enter w) as [[]|?] eqn:? end
  | match goal with |- context [w_generate ?w] =>
      destruct (w_generate w) as [?|?] eqn:? end
  | match goal with |- context [w_respond_reply ?w] =>
      destruct (w_respond_reply w) as [[]|?] eqn:? end
  | match goal with |- context [w_log_out ?w] =>
      destruct (w_log_out w) as [?|?] eqn:? end
  | match goal with |- context [w_typing_exit ?w] =>
      destruct (w_typing_exit w) as [[]|?] eqn:? end
  | match goal with |- context [contains "database" ?s] =>
      destruct (contains "database" s) eqn:? end
  | match goal with |- context [w_log_error ?w] =>
      destruct (w_log_error w) as [?|?] eqn:? end
  | match goal with |- context [w_respond_apology ?w] =>
      destruct (w_respond_apology w) as [[]|?] eqn:? end ].

Ltac all_paths := unfold_handler; repeat next_answer; reduce_handler.

Ltac shape p tail :=
  exists p, tail; split; [reflexivity|split; [by eexists|set_solver]].

Lemma guard_true ev :
  is_private ev = true → message_out ev = false →
  is_private ev && negb (message_out ev) = true.
Proof. by intros -> ->. Qed.

(** *** The store under [upsert_user] and under a run *)

Lemma upsert_user_messages user_id st :
  messages (upsert_user user_id st) = messages st.
Proof. unfold upsert_user. by destruct (users st !! user_id). Qed.

Lemma upsert_user_next_id user_id st :
  next_id (upsert_user user_id st) = next_id st.
Proof. unfold upsert_user. by destruct (users st !! user_id). Qed.

Lemma upsert_user_keeps user_id st other b :
  users st !! other = Some b →
  users (upsert_user user_id st) !! other = Some b.
Proof.
  intros H. unfold upsert_user. destruct (users st !! user_id) eqn:Hu; [done|].
  simpl. rewrite lookup_insert_ne; [done|]. intros ->. congruence.
Qed.

Lemma run_keeps_users g w ev st other b :
  users st !! other = Some b → users (run g w ev st).1.1 !! other = Some b.
Proof.
  intros H. all_paths; cbn [insert_message users];
    auto using upsert_user_keeps.
Qed.

Lemma serve_keeps_users g inbox : ∀ st other b,
  users st !! other = Some b → users (serve g inbox st) !! other = Some b.
Proof.
  induction inbox as [|[w ev] rest IH]; intros st other b H; [done|].
  simpl. apply IH. by apply run_keeps_users.
Qed.

(** *** Whole runs *)

(** Every collaborator answers: the run of a message that is relayed. *)
Lemma run_relayed g ev st s d t_in reply t_out le ra :
  is_private ev = true → message_out ev = false →
  is_blocked (user_identifier_of s) st = false →
  let uid := user_identifier_of s in
  let pic := pic_of uid d in
  run g (World (Ok (Some s)) (Ok tt) (Ok tt) (Ok tt) (Ok d) (Ok t_in)
           (Ok tt) (Ok reply) (Ok tt) (Ok t_out) (Ok tt) le ra) ev st
  = (insert_message "out" uid reply t_out pic
       (insert_message "in" uid (event_text ev) t_in pic
          (upsert_user uid st)),
     [EBlockQuery uid; EUpsert uid;
      EDownload (path_join (PROFILE_PICS_PATH g) (uid +:+ ".jpg"));
      EPrint ("Received message from " +:+ uid +:+ ": " +:+ event_text ev);
      ELogToDb "in" uid (event_text ev) pic;
      ETyping true;
      EGenerate (model g) (prompt_for g uid (event_text ev));
      ERespond reply;
      EPrint ("Sent response to " +:+ uid +:+ ": " +:+ reply);
      ELogToDb "out" uid reply pic;
      ETyping false],
     Ok tt).
Proof.
  intros Hp Ho Hb uid pic. subst uid pic. unfold_handler. cbn [w_get_sender w_db_connect
    w_db_select w_db_upsert w_download w_log_in w_typing_enter w_generate
    w_respond_reply w_log_out w_typing_exit].
  rewrite Hp, Ho. reduce_handler. rewrite Hb. reflexivity.
Qed.

(** A message that is not private, or is the account's own. *)
Lemma run_not_dispatched g w ev st :
  is_private ev && negb (message_out ev) = false →
  run g w ev st = (st, [], Ok tt).
Proof. intros H. unfold run, handle_new_message. by rewrite H. Qed.


(** *** The [except] block *)

Lemma run_try_body g w ev st s :
  is_private ev = true → message_out ev = false →
  w_get_sender w = Ok (Some s) →
  run g w ev st
  = let '(σ, r) :=
      match try_body g w ev (user_identifier_of s) (Machine st [] None) with
      | (σ, Ok a) => (σ, Ok a)
      | (σ, Raise e) => except_block w (user_identifier_of s) e σ
      end in
    (m_store σ, m_trace σ, r).
Proof.
  intros Hp Ho Hs. unfold run, handle_new_message.
  rewrite (guard_true _ Hp Ho).
  unfold mbind, M_bind, answer, deref_sender, mret, M_ret, try_except.
  by rewrite Hs.
Qed.

Lemma except_block_suppressed w user_identifier e σ :
  contains "database" (lower (str_exn e)) = true →
  except_block w user_identifier e σ
  = (Machine (m_store σ)
       (m_trace σ ++ [EPrint (diagnostic e); ERespond apology]) (m_pic σ),
     w_respond_apology w).
Proof.
  intros H. unfold_handler. rewrite H. reduce_handler.
  by rewrite <- app_assoc.
Qed.

Lemma except_block_unbound w user_identifier e σ :
  contains "database" (lower (str_exn e)) = false → m_pic σ = None →
  except_block w user_identifier e σ
  = (Machine (m_store σ) (m_trace σ ++ [EPrint (diagnostic e)]) None,
     Raise unbound_pic).
Proof. intros H Hpic. unfold_handler. rewrite H. reduce_handler. by rewrite Hpic. Qed.

(** The sibling path: a failure after [profile_pic_rel_path] is bound is
    logged and answered with the apology. *)
Lemma except_block_bound w user_identifier e σ pic now :
  contains "database" (lower (str_exn e)) = false → m_pic σ = Some pic →
  w_log_error w = Ok now →
  except_block w user_identifier e σ
  = (Machine
       (insert_message "out" user_identifier (diagnostic e) now pic (m_store σ))
       (m_trace σ ++ [EPrint (diagnostic e);
                      ELogToDb "out" user_identifier (diagnostic e) pic;
                      ERespond apology])
       (Some pic),
     w_respond_apology w).
Proof.
  intros H Hpic Hlog. unfold_handler. rewrite H. reduce_handler.
  rewrite Hpic, Hlog. reduce_handler. by rewrite <- !app_assoc.
Qed.

(** *** The claims *)




(** C2 (the code breaks it): a failure of the [try] body that comes
    before [profile_pic_rel_path] is bound, with a text that does not
    mention a database, makes the [except] block read the unbound local:
    [UnboundLocalError] leaves the handler and no apology is sent. *)
Theorem failure_before_avatar_escapes g w ev st s σ e :
  is_private ev = true → message_out ev = false →
  w_get_sender w = Ok (Some s) →
  try_body g w ev (user_identifier_of s) (Machine st [] None) = (σ, Raise e) →
  m_pic σ = None →
  contains "database" (lower (str_exn e)) = false →
  run g w ev st
  = (m_store σ, (m_trace σ ++ [EPrint (diagnostic e)])%list,
     Raise unbound_pic)
  ∧ ¬ contained (run g w ev st).
Proof.
  intros Hp Ho Hs Hbody Hpic Hdb.
  assert (Hrun : run g w ev st
    = (m_store σ, (m_trace σ ++ [EPrint (diagnostic e)])%list,
       Raise unbound_pic)).
  { rewrite (run_try_body _ _ _ _ _ Hp Ho Hs), Hbody.
    by rewrite except_block_unbound. }
  split; [done|]. rewrite Hrun. by intros [? _].
Qed.

Lemma failure_before_avatar_escapes_witness :
  run g0 w_no_photo ev0 st0
  = (Store {[ "ada99" := false ]} [] 1,
     [EBlockQuery "ada99"; EUpsert "ada99";
      EDownload "/app/web_panel/static/profile_pics/ada99.jpg";
      EPrint "An error occurred in handle_new_message: timed out"],
     Raise unbound_pic)
  ∧ ¬ contained (run g0 w_no_photo ev0 st0).
Proof.
  apply (failure_before_avatar_escapes g0 w_no_photo ev0 st0 ada
           (Machine (Store {[ "ada99" := false ]} [] 1)
              [EBlockQuery "ada99"; EUpsert "ada99";
               EDownload "/app/web_panel/static/profile_pics/ada99.jpg"]
              None)
           (Exn "TimeoutError" "timed out")); reflexivity.
Defined.

(** The sibling path of C2: a failure of the model call, after the local
    is bound, is logged and answered; nothing leaves the handler when the
    transport takes the apology. *)
Lemma failure_of_model_is_contained :
  run g0 w_model_quota ev0 st0
  = (Store {[ "ada99" := false ]}
       [Message 1 "in" "ada99" "hi" 100 (Some "profile_pics/ada99.jpg");
        Message 2 "out" "ada99"
          "An error occurred in handle_new_message: 429 quota exceeded" 102
          (Some "profile_pics/ada99.jpg")] 3,
     [EBlockQuery "ada99"; EUpsert "ada99";
      EDownload "/app/web_panel/static/profile_pics/ada99.jpg";
      EPrint "Received message from ada99: hi";
      ELogToDb "in" "ada99" "hi" (Some "profile_pics/ada99.jpg");
      ETyping true;
      EGenerate (model g0) (prompt_for g0 "ada99" "hi");
      ETyping false;
      EPrint "An error occurred in handle_new_message: 429 quota exceeded";
      ELogToDb "out" "ada99"
        "An error occurred in handle_new_message: 429 quota exceeded"
        (Some "profile_pics/ada99.jpg");
      ERespond apology],
     Ok tt).
Proof. reflexivity. Qed.

(** C3 (amended): the effects of one run come in the order inbound log,
    model call, reply send, outbound log.  The run may stop after any of
    them; a failure is then followed by the log of the diagnostic (unless
    suppressed or unbound) and the send of the apology.  When every
    collaborator answers, all four happen, the send before the log. *)
Theorem effects_log_call_send_log g w ev st :
  (∃ p tail, kinds (run g w ev st).1.2 = (p ++ tail)%list
     ∧ p `prefix_of` [LogIn; ModelCall; ReplySend; LogOut]
     ∧ tail ∈ [[]; [ReplySend]; [LogOut; ReplySend]])
  ∧ ∀ s d t_in reply t_out le ra,
      is_private ev = true → message_out ev = false →
      is_blocked (user_identifier_of s) st = false →
      w = World (Ok (Some s)) (Ok tt) (Ok tt) (Ok tt) (Ok d) (Ok t_in)
            (Ok tt) (Ok reply) (Ok tt) (Ok t_out) (Ok tt) le ra →
      kinds (run g w ev st).1.2 = [LogIn; ModelCall; ReplySend; LogOut].
Proof.
  split.
  - all_paths;
      first [ shape (@nil kind) (@nil kind)
            | shape (@nil kind) [ReplySend]
            | shape [LogIn] [ReplySend]
            | shape [LogIn] [LogOut; ReplySend]
            | shape [LogIn; ModelCall] [ReplySend]
            | shape [LogIn; ModelCall] [LogOut; ReplySend]
            | shape [LogIn; ModelCall; ReplySend] [ReplySend]
            | shape [LogIn; ModelCall; ReplySend] [LogOut; ReplySend]
            | shape [LogIn; ModelCall; ReplySend; LogOut] (@nil kind)
            | shape [LogIn; ModelCall; ReplySend; LogOut] [ReplySend]
            | shape [LogIn; ModelCall; ReplySend; LogOut] [LogOut; ReplySend] ].
  - intros s d t_in reply t_out le ra Hp Ho Hb ->.
    by rewrite run_relayed.
Qed.

Lemma effects_log_call_send_log_witness :
  kinds (run g0 w_ok ev0 st0).1.2 = [LogIn; ModelCall; ReplySend; LogOut].
Proof.
  apply (proj2 (effects_log_call_send_log g0 w_ok ev0 st0) ada
           (Some "/app/ada99.jpg") 100%Z "hello" 101%Z (Ok 102%Z) (Ok tt));
    reflexivity.
Defined.

(** C3 (as stated) fails: when every collaborator answers, the reply is
    sent before the outbound row is logged. *)
Lemma reply_sent_before_outbound_log :
  ¬ log_call_log_send (kinds (run g0 w_ok ev0 st0).1.2).
Proof.
  intros (_ & _ & H). specialize (H 3 2 eq_refl eq_refl). lia.
Qed.

(** C5 (amended): when the sender is blocked and the store answers the
    block check, the handler prints its note and returns: the store is the
    same (no row, no write to [users]) and nothing is sent. *)
Theorem blocked_sender_suppressed g w ev st s :
  is_private ev = true → message_out ev = false →
  w_get_sender w = Ok (Some s) →
  w_db_connect w = Ok tt → w_db_select w = Ok tt →
  users st !! user_identifier_of s = Some true →
  run g w ev st
  = (st,
     [EBlockQuery (user_identifier_of s);
      EPrint ("Ignoring message from blocked user: "
                +:+ user_identifier_of s)],
     Ok tt)
  ∧ suppressed st (run g w ev st).
Proof.
  intros Hp Ho Hs Hc Hsel Hb.
  assert (Hrun : run g w ev st
    = (st, [EBlockQuery (user_identifier_of s);
            EPrint ("Ignoring message from blocked user: "
                      +:+ user_identifier_of s)], Ok tt)).
  { unfold_handler. rewrite (guard_true _ Hp Ho), Hs, Hc, Hsel.
    reduce_handler. unfold is_blocked. by rewrite Hb. }
  split; [done|]. rewrite Hrun. repeat split.
  intros text Hin. cbn [fst snd] in Hin.
  rewrite !elem_of_cons, elem_of_nil in Hin.
  destruct Hin as [?|[?|[]]]; discriminate.
Qed.

Lemma blocked_sender_suppressed_witness :
  run g0 w_ok ev0 st_blocked
  = (st_blocked,
     [EBlockQuery "ada99"; EPrint "Ignoring message from blocked user: ada99"],
     Ok tt)
  ∧ suppressed st_blocked (run g0 w_ok ev0 st_blocked).
Proof.
  apply (blocked_sender_suppressed g0 w_ok ev0 st_blocked ada); reflexivity.
Defined.

(** C5 (as stated) fails: the sender is blocked, the store refuses the
    connection of the block check with a text that mentions a database,
    and the apology is sent. *)
Lemma blocked_sender_gets_apology_when_store_down :
  users st_blocked !! user_identifier_of ada = Some true
  ∧ ¬ suppressed st_blocked (run g0 w_no_store ev0 st_blocked).
Proof.
  split; [reflexivity|]. intros (_ & _ & H). apply (H apology).
  vm_compute. by repeat constructor.
Qed.


(** C7: a run calls the model at most once; when it does, the sender is
    not blocked, the handle is the one built at startup and the prompt is
    the persona of the sender (the default persona when none is keyed to
    the identifier), two line feeds and the text of the message.  The
    call is made whenever the steps before it succeed.  The system prompt
    is in the handle, put there once by [startup], and not in the
    prompt. *)
Theorem prompt_is_persona_then_text config dir file g w ev st :
  startup config dir file = Ok g →
  (∃ system_prompt,
     PromptConfig.load_prompt_config_from_txt file
     = Ok (system_prompt, personas g, default_persona g)
     ∧ model g = GenerativeModel (GEMINI_MODEL config) system_prompt)
  ∧ (model_calls (run g w ev st).1.2 = []
     ∨ ∃ s, w_get_sender w = Ok (Some s)
         ∧ is_blocked (user_identifier_of s) st = false
         ∧ model_calls (run g w ev st).1.2
           = [(model g,
               prompt_for g (user_identifier_of s) (event_text ev))])
  ∧ ∀ s d,
      is_private ev = true → message_out ev = false →
      w_get_sender w = Ok (Some s) →
      w_db_connect w = Ok tt → w_db_select w = Ok tt →
      is_blocked (user_identifier_of s) st = false →
      w_db_upsert w = Ok tt → w_download w = Ok d →
      w_typing_enter w = Ok tt →
      model_calls (run g w ev st).1.2
      = [(model g, prompt_for g (user_identifier_of s) (event_text ev))].
Proof.
  intros Hstart. split; [|split].
  - unfold startup in Hstart.
    destruct (PromptConfig.load_prompt_config_from_txt file)
      as [[[sp ps] dp]|e]; [|done].
    simpl in Hstart. injection Hstart as <-. by exists sp.
  - all_paths; first [ by left | right; eexists; by repeat split ].
  - intros s d Hp Ho Hs Hc Hsel Hb Hu Hd Hen.
    unfold_handler. rewrite (guard_true _ Hp Ho), Hs, Hc, Hsel.
    reduce_handler. rewrite Hb, Hu, Hd, Hen.
    repeat next_answer; reduce_handler; reflexivity.
Qed.

Lemma prompt_is_persona_then_text_witness :
  model_calls
    (run g0 w_ok ev0 st0).1.2
  = [(GenerativeModel "gemini-1.5-flash" "You are a relay.",
      "Be terse." +:+ String "010" (String "010" "hi"))].
Proof.
  assert (Hstart : startup ∅ "/app" (Some prompt_file0) = Ok g0)
    by (vm_compute; reflexivity).
  apply (proj2 (proj2 (prompt_is_persona_then_text ∅ "/app"
           (Some prompt_file0) g0 w_ok ev0 st0 Hstart))
           ada (Some "/app/ada99.jpg"));
    reflexivity.
Defined.

(** C8: [upsert_user] inserts the user with [blocked = false] when the
    user is absent and changes nothing when the user is present; it
    leaves every row of [users] that exists as it is, and [messages]
    too.  A user who is blocked is still blocked after any inbox has been
    handled. *)
Theorem upsert_user_keeps_block user_id st :
  match users st !! user_id with
  | None => users (upsert_user user_id st) = <[user_id := false]> (users st)
  | Some _ => upsert_user user_id st = st
  end
  ∧ messages (upsert_user user_id st) = messages st
  ∧ (∀ other b, users st !! other = Some b →
       users (upsert_user user_id st) !! other = Some b)
  ∧ ∀ g inbox, users st !! user_id = Some true →
       is_blocked user_id (serve g inbox st) = true.
Proof.
  split; [|split; [|split]].
  - unfold upsert_user. by destruct (users st !! user_id).
  - apply upsert_user_messages.
  - intros other b. apply upsert_user_keeps.
  - intros g inbox H. unfold is_blocked.
    by rewrite (serve_keeps_users g inbox st user_id true H).
Qed.

Lemma upsert_user_keeps_block_witness :
  users (upsert_user "bob" st_blocked) !! "ada99" = Some true
  ∧ is_blocked "ada99"
      (serve g0 [(w_ok, ev0); (w_model_quota, ev0); (w_no_store, ev0)]
         st_blocked) = true.
Proof.
  pose proof (upsert_user_keeps_block "bob" st_blocked) as (_ & _ & H & _).
  pose proof (upsert_user_keeps_block "ada99" st_blocked) as (_ & _ & _ & H').
  split; [apply H|apply H']; reflexivity.
Defined.

(** C10: when the text of the failure holds the word "database" in any
    letter case, the [except] block adds no row and no log call: it
    prints the diagnostic and sends the apology, and the handler ends as
    that send ends. *)
Theorem database_any_case_suppresses_row g w ev st s σ e pre mid post :
  is_private ev = true → message_out ev = false →
  w_get_sender w = Ok (Some s) →
  try_body g w ev (user_identifier_of s) (Machine st [] None) = (σ, Raise e) →
  str_exn e = pre +:+ mid +:+ post → lower mid = "database" →
  run g w ev st
  = (m_store σ,
     (m_trace σ ++ [EPrint (diagnostic e); ERespond apology])%list,
     w_respond_apology w).
Proof.
  intros Hp Ho Hs Hbody Htext Hmid.
  rewrite (run_try_body _ _ _ _ _ Hp Ho Hs), Hbody.
  rewrite except_block_suppressed; [done|].
  by rewrite Htext, !lower_app, Hmid, contains_app.
Qed.

Lemma database_any_case_suppresses_row_witness :
  run g0 w_model_database ev0 st0
  = (Store {[ "ada99" := false ]}
       [Message 1 "in" "ada99" "hi" 100 (Some "profile_pics/ada99.jpg")] 2,
     [EBlockQuery "ada99"; EUpsert "ada99";
      EDownload "/app/web_panel/static/profile_pics/ada99.jpg";
      EPrint "Received message from ada99: hi";
      ELogToDb "in" "ada99" "hi" (Some "profile_pics/ada99.jpg");
      ETyping true;
      EGenerate (model g0) (prompt_for g0 "ada99" "hi");
      ETyping false;
      EPrint "An error occurred in handle_new_message: 500 Vector DATABASE unavailable";
      ERespond apology],
     Ok tt).
Proof.
  apply (database_any_case_suppresses_row g0 w_model_database ev0 st0 ada
           (Machine
              (Store {[ "ada99" := false ]}
                 [Message 1 "in" "ada99" "hi" 100
                    (Some "profile_pics/ada99.jpg")] 2)
              [EBlockQuery "ada99"; EUpsert "ada99";
               EDownload "/app/web_panel/static/profile_pics/ada99.jpg";
               EPrint "Received message from ada99: hi";
               ELogToDb "in" "ada99" "hi" (Some "profile_pics/ada99.jpg");
               ETyping true;
               EGenerate (model g0) (prompt_for g0 "ada99" "hi");
               ETyping false]
              (Some (Some "profile_pics/ada99.jpg")))
           (Exn "InternalServerError" "500 Vector DATABASE unavailable")
           "500 Vector " "DATABASE" " unavailable"); reflexivity.
Defined.

End AgentFacts.
(** ** More on strings *)

Module PyMoreFacts.
Import PyStr StrSpec PyMore PyStrFacts.

Lemma split_nonempty sep s : split sep s ≠ [].
Proof.
  destruct s as [|c s]; [done|]. simpl.
  destruct (decide (c = sep)); [done|]. by destruct (split sep s).
Qed.

Lemma join_cons sep x l :
  l ≠ [] → join sep (x :: l) = x +:+ String sep (join sep l).
Proof. by destruct l. Qed.

Lemma in_char_app c s t : in_char c (s +:+ t) = in_char c s || in_char c t.
Proof.
  induction s as [|c' s IH]; [done|]. rewrite app_String. simpl.
  by destruct (decide (c' = c)).
Qed.

Lemma join_of_split sep s :
  join sep (split sep s) = s
  ∧ Forall (λ piece, in_char sep piece = false) (split sep s)
  ∧ List.length (split sep s) = S (count_char sep s).
Proof.
  induction s as [|c s (IHj & IHf & IHl)]; [by repeat constructor|].
  simpl. destruct (decide (c = sep)) as [->|Hne].
  - rewrite join_cons by apply split_nonempty. rewrite IHj.
    repeat split; [by constructor|]. simpl. by rewrite IHl.
  - pose proof (split_nonempty sep s) as Hs.
    destruct (split sep s) as [|w ws]; [done|].
    apply Forall_cons in IHf as [Hw Hws]. repeat split.
    + destruct ws; simpl in *; by rewrite <- IHj.
    + constructor; [|done]. simpl. by rewrite decide_False.
    + done.
Qed.

Lemma split_of_join sep l :
  l ≠ [] → Forall (λ piece, in_char sep piece = false) l →
  split sep (join sep l) = l.
Proof.
  induction l as [|x l IH]; intros Hne Hall; [done|].
  apply Forall_cons in Hall as [Hx Hl].
  destruct l as [|y l].
  - simpl. by apply split_no_sep.
  - rewrite join_cons by done. rewrite split_app_sep by done.
    by rewrite IH.
Qed.

(** X1: [split] and [join] are inverse to each other: joining the pieces
    of a string gives the string back, no piece holds the separator and
    there is one piece more than separators; and a non-empty list of
    pieces without the separator is what its joining splits into. *)
Theorem split_join_inverse sep :
  (∀ s, join sep (split sep s) = s
        ∧ Forall (λ piece, in_char sep piece = false) (split sep s)
        ∧ List.length (split sep s) = S (count_char sep s))
  ∧ ∀ l, l ≠ [] → Forall (λ piece, in_char sep piece = false) l →
         split sep (join sep l) = l.
Proof. split; [apply join_of_split|apply split_of_join]. Qed.

Lemma split_join_inverse_witness :
  split "[" (join "[" ["x"; "system_prompt]A"; "oops"])
  = ["x"; "system_prompt]A"; "oops"].
Proof.
  apply (proj2 (split_join_inverse "[")); [done|].
  repeat constructor.
Defined.

(** X2: [split(sep, 1)] cuts at the first separator: a string with the
    separator gives the part before its first occurrence and all the
    rest; a string without it is returned whole. *)
Theorem split1_first_cut sep s :
  if in_char sep s
  then ∃ h t, split1 sep s = [h; t] ∧ s = h +:+ String sep t
              ∧ in_char sep h = false
  else split1 sep s = [s].
Proof.
  induction s as [|c s IH]; [done|]. simpl.
  destruct (decide (c = sep)) as [->|Hne]; [by exists "", s|].
  destruct (in_char sep s).
  - destruct IH as (h & t & -> & -> & Hh). exists (String c h), t.
    repeat split. simpl. by rewrite decide_False.
  - by rewrite IH.
Qed.

Lemma contains_iff needle hay :
  contains needle hay = true ↔ ∃ pre post, hay = pre +:+ needle +:+ post.
Proof.
  split.
  - induction hay as [|c hay IH]; cbn [contains].
    + rewrite orb_false_r. intros H. destruct (prefix_inv _ _ H) as [t ->].
      by exists "", t.
    + intros [H|H]%orb_true_iff.
      * destruct (prefix_inv _ _ H) as [t Ht]. exists "", t. by rewrite Ht.
      * destruct (IH H) as (pre & post & ->). by exists (String c pre), post.
  - intros (pre & post & ->). apply contains_app.
Qed.

(** X3: [needle in hay] holds exactly when [hay] is some text, the
    needle, and some text. *)
Theorem contains_substring needle hay :
  contains needle hay = true ↔ ∃ pre post, hay = pre +:+ needle +:+ post.
Proof. apply contains_iff. Qed.

Lemma lower_app_inv s a b :
  lower s = a +:+ b → ∃ a' b', s = a' +:+ b' ∧ lower a' = a ∧ lower b' = b.
Proof.
  revert s. induction a as [|c a IH]; intros s H.
  - by exists "", s.
  - destruct s as [|c' s]; [done|]. rewrite app_String in H. simpl in H.
    injection H as Hc Hs. destruct (IH _ Hs) as (a' & b' & -> & <- & <-).
    exists (String c' a'), b'. by rewrite <- Hc.
Qed.

(** X4: the test of the [except] block, ["database" in str(e).lower()],
    holds exactly when the text holds a run of characters that lower to
    the needle: it misses no letter case and takes nothing else. *)
Theorem contains_lower_any_case needle s :
  contains needle (lower s) = true
  ↔ ∃ pre mid post, s = pre +:+ mid +:+ post ∧ lower mid = needle.
Proof.
  rewrite contains_iff. split.
  - intros (pre & post & H).
    destruct (lower_app_inv _ _ _ H) as (pre' & rest & -> & _ & Hrest).
    destruct (lower_app_inv _ _ _ Hrest) as (mid & post' & -> & Hmid & _).
    by exists pre', mid, post'.
  - intros (pre & mid & post & -> & <-).
    exists (lower pre), (lower post). by rewrite !lower_app.
Qed.

Lemma lstrip_fixed s :
  (∀ c, head_char s = Some c → isspace c = false) → lstrip s = s.
Proof. destruct s as [|c s]; [done|]. simpl. intros H. by rewrite (H c). Qed.

Lemma strip_idempotent s : strip (strip s) = strip s.
Proof.
  destruct (strip_trimmed s) as (_ & _ & _ & _ & _ & Hh & Hl).
  unfold strip at 1. rewrite (lstrip_fixed _ Hh).
  unfold rstrip. rewrite (lstrip_fixed _ Hl). apply rev_involutive.
Qed.

(** X5: [strip] cuts blanks, and only blanks, from both ends: the string
    is a blank lead, its [strip] and a blank tail, and the [strip] neither
    begins nor ends with a blank; stripping once more changes nothing. *)
Theorem strip_trims s :
  (∃ l r, s = l +:+ strip s +:+ r ∧ blank l = true ∧ blank r = true)
  ∧ (head_char (strip s) ≫= (λ c, Some (isspace c))) ≠ Some true
  ∧ (last_char (strip s) ≫= (λ c, Some (isspace c))) ≠ Some true
  ∧ strip (strip s) = strip s.
Proof.
  destruct (strip_trimmed s) as (l & r & Hs & Hl & Hr & Hh & Ht).
  split; [by exists l, r|]. split; [|split; [|apply strip_idempotent]].
  - destruct (head_char (strip s)) as [c|] eqn:Hc; [|done].
    simpl. by rewrite (Hh c eq_refl).
  - destruct (last_char (strip s)) as [c|] eqn:Hc; [|done].
    simpl. by rewrite (Ht c eq_refl).
Qed.

End PyMoreFacts.

(** ** More on the prompt file *)

Module PromptMoreFacts.
Import PyStr PromptConfig StrSpec PromptSpec PyMore MoreSpec.
Import PyStrFacts PromptFacts PyMoreFacts.






(** X9: what stands before the first opening bracket is ignored.  A
    missing file and a file without any opening bracket give the empty
    configuration, and a lead without an opening bracket changes nothing
    of what the rest of the file gives. *)
Theorem text_before_first_header_ignored :
  load_prompt_config_from_txt None = Ok ("", ∅, "")
  ∧ (∀ content, in_char "[" content = false →
       load_prompt_config_from_txt (Some content) = Ok ("", ∅, ""))
  ∧ ∀ lead rest, in_char "[" lead = false →
      load_prompt_config_from_txt (Some (lead +:+ String "[" rest))
      = load_prompt_config_from_txt (Some (String "[" rest)).
Proof.
  split; [done|]. split; [apply no_header_empty|apply preamble_ignored].
Qed.

Lemma text_before_first_header_ignored_witness :
  load_prompt_config_from_txt (Some "notes, no section") = Ok ("", ∅, "")
  ∧ load_prompt_config_from_txt
      (Some ("# personas" +:+ String "[" "default_persona]C"))
    = load_prompt_config_from_txt (Some (String "[" "default_persona]C")).
Proof.
  pose proof text_before_first_header_ignored as (_ & H1 & H2).
  split; [by apply H1|by apply H2].
Defined.



(** X10: a section under a header that is none of the three kinds is
    skipped: the sections before and after it give the same result
    without it. *)
Theorem unknown_header_skipped acc before section after h b :
  header_body section = Some (h, b) →
  h ≠ "system_prompt" → h ≠ "default_persona" →
  startswith "persona:" h = false →
  parse_sections acc (before ++ section :: after)
  = parse_sections acc (before ++ after).
Proof.
  intros Hhb Hsp Hdp Hp. revert acc.
  induction before as [|x before IH]; intros acc.
  - cbn [app parse_sections]. destruct acc as [[sp ps] dp].
    unfold parse_section. rewrite (header_body_unpack _ _ _ Hhb). simpl.
    rewrite decide_False by done. rewrite Hp. by rewrite decide_False by done.
  - cbn [app parse_sections]. destruct (parse_section acc x); [|done].
    simpl. apply IH.
Qed.

Lemma unknown_header_skipped_witness :
  parse_sections ("", ∅, "")
    (["system_prompt]A"] ++ "notes]N" :: ["default_persona]C"])
  = parse_sections ("", ∅, "")
      (["system_prompt]A"] ++ ["default_persona]C"]).
Proof.
  apply (unknown_header_skipped ("", ∅, "") ["system_prompt]A"] "notes]N"
           ["default_persona]C"] "notes" "N"); done.
Defined.

(** *** Writing a prompt file and reading it back *)







End PromptMoreFacts.

(** ** Paths *)

Module PathFacts.
Import PyStr StrSpec PyMore Agent AgentSpec PyStrFacts PyMoreFacts.

Lemma in_char_rev c s : in_char c (String.rev s) = in_char c s.
Proof.
  induction s as [|c' s IH]; [done|]. rewrite rev_String, in_char_app, IH.
  simpl. destruct (decide (c' = c)); [apply orb_true_r|].
  by rewrite orb_false_r.
Qed.

Lemma from_slash_app x y :
  in_char "/" x = false → from_slash (x +:+ String "/" y) = String "/" y.
Proof.
  induction x as [|c x IH]; intros H; [done|]. rewrite app_String.
  simpl in *. destruct (decide (c = "/"%char)); [done|]. by apply IH.
Qed.

Lemma last_char_rev a c :
  last_char a = Some c → ∃ r, String.rev a = String c r.
Proof. unfold last_char. destruct (String.rev a); naive_solver. Qed.

Lemma prefix_slash_false b : in_char "/" b = false → startswith "/" b = false.
Proof.
  destruct b as [|c b]; [done|]. unfold startswith. cbn [in_char String.prefix].
  intros H. destruct (ascii_dec "/" c) as [<-|]; [|done].
  by rewrite decide_True in H.
Qed.

(** X6: joining a directory that does not end in a slash with a name
    that holds no slash puts one slash between them, and [dirname] of the
    result is the directory again. *)
Theorem dirname_of_path_join a b c :
  last_char a = Some c → c ≠ "/"%char → in_char "/" b = false →
  path_join a b = a +:+ "/" +:+ b ∧ dirname (path_join a b) = a.
Proof.
  intros Ha Hc Hb. destruct (last_char_rev _ _ Ha) as [r Hr].
  assert (Hne : a ≠ "") by (by intros ->).
  assert (Hj : path_join a b = a +:+ "/" +:+ b).
  { unfold path_join. rewrite (prefix_slash_false _ Hb).
    rewrite decide_False by done. rewrite Hr. unfold startswith.
    cbn [String.prefix]. by destruct (ascii_dec "/" c) as [<-|]. }
  split; [done|]. rewrite Hj. unfold dirname.
  change (a +:+ "/" +:+ b) with (a +:+ String "/" b).
  rewrite rev_app_distr, rev_String, app_assoc_s.
  change (String "/" "" +:+ String.rev a) with (String "/" (String.rev a)).
  rewrite from_slash_app by (by rewrite in_char_rev).
  rewrite rev_String, rev_involutive.
  assert (Hhead : lstrip_slash (String.rev (a +:+ String "/" ""))
                  = String.rev a).
  { rewrite rev_app_distr.
    change (String.rev (String "/" "") +:+ String.rev a)
      with (String "/" (String.rev a)).
    cbn [lstrip_slash]. rewrite decide_True by done. rewrite Hr.
    cbn [lstrip_slash]. by rewrite decide_False. }
  rewrite decide_False by (by destruct a).
  rewrite decide_False.
  - by rewrite Hhead, rev_involutive.
  - intros Hall. clear -Hall Hr Hc.
    assert (H : ∀ s, lstrip_slash s = "" → in_char c s = false).
    { induction s as [|c' s IH]; [done|]. simpl.
      destruct (decide (c' = "/"%char)) as [->|]; [|done].
      intros H. rewrite decide_False by done. by apply IH. }
    apply H in Hall. rewrite in_char_app, <- (in_char_rev c a), Hr in Hall.
    simpl in Hall. by rewrite decide_True in Hall.
Qed.

Lemma dirname_of_path_join_witness :
  path_join "/app/web_panel/static" "profile_pics"
  = "/app/web_panel/static" +:+ "/" +:+ "profile_pics"
  ∧ dirname (path_join "/app/web_panel/static" "profile_pics")
    = "/app/web_panel/static".
Proof.
  apply (dirname_of_path_join "/app/web_panel/static" "profile_pics" "c");
    done.
Defined.





End PathFacts.

(** ** More on the handler *)

Module AgentMoreFacts.
Import PyStr Store Agent StrSpec AgentSpec MoreSpec Inputs MoreInputs.
Import PyStrFacts AgentFacts.

Ltac no_member H :=
  repeat (apply elem_of_cons in H as [H|H]; [discriminate H|]);
  by apply elem_of_nil in H.

Ltac store_rows :=
  cbn [insert_message messages next_id users];
  rewrite ?upsert_user_messages, ?upsert_user_next_id, <- ?app_assoc.

Lemma run_appends g w ev st :
  ∃ new,
    messages (run g w ev st).1.1 = (messages st ++ new)%list
    ∧ next_id (run g w ev st).1.1 = (next_id st + List.length new)%nat
    ∧ (List.length new ≤ 3)%nat
    ∧ id <$> new = seq (next_id st) (List.length new)
    ∧ Forall (λ m, (direction m = "in" ∨ direction m = "out")
                   ∧ ∃ s, w_get_sender w = Ok (Some s)
                          ∧ user_id m = user_identifier_of s) new.
Proof.
  all_paths; store_rows;
    (first [ exists []; split; [by rewrite app_nil_r|]
           | eexists; split; [reflexivity|] ]);
    cbn [List.length List.app fmap list_fmap seq id];
    (split; [lia|]); (split; [lia|]); (split; [reflexivity|]);
    repeat (apply Forall_cons; split;
              [split; [by (left + right)|by eexists]|]);
    by apply Forall_nil.
Qed.



Lemma upsert_user_users user_id st :
  users (upsert_user user_id st)
  = match users st !! user_id with
    | Some _ => users st
    | None => <[user_id := false]> (users st)
    end.
Proof. unfold upsert_user. by destruct (users st !! user_id). Qed.

(** X13: the only write of the handler to [users] registers the sender: a
    run leaves [users] as it was, or adds the identifier of the sender,
    which was absent, with [blocked = false]. *)
Theorem run_registers_sender g w ev st :
  users (run g w ev st).1.1 = users st
  ∨ ∃ s, w_get_sender w = Ok (Some s)
         ∧ users st !! user_identifier_of s = None
         ∧ users (run g w ev st).1.1
           = <[user_identifier_of s := false]> (users st).
Proof.
  all_paths; store_rows; rewrite ?upsert_user_users;
    try (by left);
    match goal with
    | |- context [users st !! ?u] =>
        destruct (users st !! u) eqn:?; [by left|right; by eexists]
    end.
Qed.

(** X14: a sender whose message reached the model is registered and not
    blocked after the run. *)
Theorem model_called_registered g w ev st :
  model_called (run g w ev st).1.2 →
  ∃ s, w_get_sender w = Ok (Some s)
       ∧ users (run g w ev st).1.1 !! user_identifier_of s = Some false.
Proof.
  unfold model_called.
  all_paths; intros (m & p & Hin);
    try (by no_member Hin);
    eexists; (split; [reflexivity|]); store_rows;
    rewrite upsert_user_users;
    match goal with
    | H : is_blocked ?u st = false |- _ =>
        unfold is_blocked in H; destruct (users st !! u) as [[]|] eqn:?;
        [done|done|by rewrite lookup_insert_eq]
    end.
Qed.

Lemma model_called_registered_witness :
  ∃ s, w_get_sender w_ok = Ok (Some s)
       ∧ users (run g0 w_ok ev0 st0).1.1 !! user_identifier_of s = Some false.
Proof.
  apply (model_called_registered g0 w_ok ev0 st0).
  eexists _, _. vm_compute. by repeat constructor.
Defined.

Lemma ids_ok_extend st st' new :
  messages st' = (messages st ++ new)%list →
  next_id st' = (next_id st + List.length new)%nat →
  id <$> new = seq (next_id st) (List.length new) →
  ids_ok st → ids_ok st'.
Proof.
  intros Hm Hn Hid [Hnd Hlt]. unfold ids_ok. rewrite Hm, Hn. split.
  - rewrite fmap_app, Hid. apply NoDup_app. split; [done|]. split.
    + intros x Hx Hs. apply list_elem_of_fmap in Hx as (m & -> & Hm').
      rewrite Forall_forall in Hlt. specialize (Hlt _ Hm').
      apply elem_of_seq in Hs. lia.
    + apply NoDup_seq.
  - apply Forall_app. split.
    + eapply Forall_impl; [exact Hlt|]. intros m ?. simpl in *. lia.
    + apply Forall_forall. intros m Hm'.
      assert (id m ∈ seq (next_id st) (List.length new)) as Hs.
      { rewrite <- Hid. by apply (list_elem_of_fmap_2 id). }
      apply elem_of_seq in Hs. lia.
Qed.

Lemma run_ids_ok g w ev st :
  ids_ok st →
  ids_ok (run g w ev st).1.1
  ∧ messages st `prefix_of` messages (run g w ev st).1.1.
Proof.
  intros H. destruct (run_appends g w ev st)
    as (new & Hm & Hn & _ & Hid & _).
  split; [by eapply ids_ok_extend|]. rewrite Hm. by exists new.
Qed.

(** X15: the primary key of [messages] holds over any inbox: when the ids
    are distinct and below the sequence before, they are so after, and
    the rows that were there are a prefix of the rows after. *)
Theorem serve_keeps_primary_key g inbox : ∀ st,
  ids_ok st →
  ids_ok (serve g inbox st)
  ∧ messages st `prefix_of` messages (serve g inbox st).
Proof.
  induction inbox as [|[w ev] rest IH]; intros st H; [done|].
  cbn [serve]. destruct (run_ids_ok g w ev st H) as [H1 Hp].
  destruct (IH _ H1) as [H2 Hp']. split; [done|]. by etrans.
Qed.

Lemma serve_keeps_primary_key_witness :
  ids_ok (serve g0 [(w_ok, ev0); (w_model_quota, ev0)] st0)
  ∧ messages st0
    `prefix_of` messages (serve g0 [(w_ok, ev0); (w_model_quota, ev0)] st0).
Proof.
  apply (serve_keeps_primary_key g0 [(w_ok, ev0); (w_model_quota, ev0)] st0).
  split; [apply NoDup_nil_2|apply Forall_nil_2].
Defined.






(** X19: the sender only ever receives the reply of the model or the
    apology: a run sends nothing, the reply, the apology, or the reply and
    then the apology.  The text of an exception is never sent. *)
Theorem sends_reply_or_apology g w ev st :
  sends (run g w ev st).1.2 = []
  ∨ sends (run g w ev st).1.2 = [apology]
  ∨ ∃ reply, w_generate w = Ok reply
             ∧ (sends (run g w ev st).1.2 = [reply]
                ∨ sends (run g w ev st).1.2 = [reply; apology]).
Proof.
  all_paths;
    first [ by left
          | by (right; left)
          | right; right; eexists; split; [reflexivity|]; by (left + right) ].
Qed.



(** X21: a run leaves no trace exactly when the event is not a private
    inbound message or the sender is not resolved; the store is then as
    it was. *)
Theorem silent_exactly_when_not_dispatched g w ev st :
  ((run g w ev st).1.2 = []
   ↔ is_private ev && negb (message_out ev) = false
     ∨ ∀ s, w_get_sender w ≠ Ok (Some s))
  ∧ ((run g w ev st).1.2 = [] → (run g w ev st).1.1 = st).
Proof.
  split; [split|].
  - all_paths; intros H; try discriminate H; try (by left);
      right; by intros s'.
  - intros [H|H]; unfold_handler; [by rewrite H|].
    destruct (is_private ev && negb (message_out ev)); [|done].
    destruct (w_get_sender w) as [[s|]|e]; [by destruct (H s)|done|done].
  - all_paths; intros H; try discriminate H; reflexivity.
Qed.

(** X22: the typing indicator is switched on at most once and the model
    is called right after it: in a run the indicator and the model call
    come as nothing, on and call, or on, call and off. *)
Theorem model_called_while_typing g w ev st :
  marks (run g w ev st).1.2 ∈
    [[]; [TypingOn; Call]; [TypingOn; Call; TypingOff]].
Proof.
  all_paths;
    first [ by apply list_elem_of_here
          | by apply list_elem_of_further, list_elem_of_here
          | by do 2 apply list_elem_of_further; apply list_elem_of_here ].
Qed.


Lemma upsert_user_registered user_id st :
  is_Some (users (upsert_user user_id st) !! user_id).
Proof.
  rewrite upsert_user_users. destruct (users st !! user_id) eqn:H.
  - by rewrite H.
  - by rewrite lookup_insert_eq.
Qed.

Lemma run_rows_registered g w ev st :
  Forall (λ m, is_Some (users (run g w ev st).1.1 !! user_id m))
    (appended st (run g w ev st).1.1).
Proof.
  unfold appended.
  all_paths; store_rows; rewrite ?drop_app_length, ?drop_all;
    repeat (apply Forall_cons; split;
              [cbn [user_id]; apply upsert_user_registered|]);
    by apply Forall_nil.
Qed.

Lemma run_refs_ok g w ev st :
  refs_ok st → refs_ok (run g w ev st).1.1.
Proof.
  intros H. unfold refs_ok.
  pose proof (run_rows_registered g w ev st) as Hnew. unfold appended in Hnew.
  destruct (run_appends g w ev st) as (new & Hm & _).
  rewrite Hm in Hnew |- *. rewrite drop_app_length in Hnew.
  apply Forall_app. split; [|done].
  eapply Forall_impl; [exact H|]. intros m [b Hb].
  exists b. by apply run_keeps_users.
Qed.

(** X16: every row names a registered user, over any inbox: when each
    row of [messages] has its [user_id] in [users] before, it is so
    after.  The handler logs a row only after the upsert of its sender. *)
Theorem serve_keeps_references g inbox : ∀ st,
  refs_ok st → refs_ok (serve g inbox st).
Proof.
  induction inbox as [|[w ev] rest IH]; intros st H; [done|].
  cbn [serve]. by apply IH, run_refs_ok.
Qed.

Lemma serve_keeps_references_witness :
  refs_ok (serve g0 [(w_ok, ev0); (w_model_quota, ev0)] st0).
Proof.
  apply (serve_keeps_references g0 [(w_ok, ev0); (w_model_quota, ev0)] st0).
  apply Forall_nil_2.
Defined.

(** X23: a blocked sender never reaches the model and never gets a row,
    whatever the collaborators answer: the store is as it was, the model
    is not called, and nothing is sent but, when the block check itself
    fails, the apology. *)
Theorem blocked_sender_never_reaches_model g w ev st s :
  w_get_sender w = Ok (Some s) →
  users st !! user_identifier_of s = Some true →
  (run g w ev st).1.1 = st
  ∧ model_calls (run g w ev st).1.2 = []
  ∧ (sends (run g w ev st).1.2 = []
     ∨ sends (run g w ev st).1.2 = [apology]).
Proof.
  intros Hs Hb.
  assert (Hblocked : is_blocked (user_identifier_of s) st = true)
    by (unfold is_blocked; by rewrite Hb).
  unfold_handler. rewrite Hs. reduce_handler.
  destruct (is_private ev && negb (message_out ev)); [|by auto].
  destruct (w_db_connect w) as [[]|e1]; reduce_handler;
    [destruct (w_db_select w) as [[]|e2]; reduce_handler;
     [rewrite Hblocked; by auto|]|];
    repeat next_answer; reduce_handler; by auto.
Qed.

Lemma blocked_sender_never_reaches_model_witness :
  (run g0 w_no_store ev0 st_blocked).1.1 = st_blocked
  ∧ model_calls (run g0 w_no_store ev0 st_blocked).1.2 = []
  ∧ (sends (run g0 w_no_store ev0 st_blocked).1.2 = []
     ∨ sends (run g0 w_no_store ev0 st_blocked).1.2 = [apology]).
Proof.
  apply (blocked_sender_never_reaches_model g0 w_no_store ev0 st_blocked ada);
    reflexivity.
Defined.

End AgentMoreFacts.

(** ** The start of the process *)

Module InitFacts.
Import PyStr Store PyMore Init MoreInputs.

Ltac unfold_init :=
  unfold run_init, init_db, itry_except, iprint, iemit, ianswer, iraise,
    get_tx, set_tx, committed, mbind, I_bind, mret, I_ret in *.

Ltac reduce_init :=
  cbn [i_db i_tx i_trace tbl_messages tbl_users fst snd List.app negb] in *.

Ltac next_init :=
  reduce_init;
  first
  [ match goal with |- context [i_exists ?w] =>
      destruct (i_exists w) eqn:? end
  | match goal with |- context [i_makedirs ?w] =>
      destruct (i_makedirs w) as [[]|?] eqn:? end
  | match goal with |- context [truthy ?u] => destruct (truthy u) eqn:? end
  | match goal with |- context [i_connect ?w] =>
      destruct (i_connect w) as [[]|?] eqn:? end
  | match goal with |- context [i_probe_messages ?w] =>
      destruct (i_probe_messages w) as [[]|?] eqn:? end
  | match goal with |- context [i_create_messages ?w] =>
      destruct (i_create_messages w) as [[]|?] eqn:? end
  | match goal with |- context [i_probe_users ?w] =>
      destruct (i_probe_users w) as [[]|?] eqn:? end
  | match goal with |- context [i_create_users ?w] =>
      destruct (i_create_users w) as [[]|?] eqn:? end
  | match goal with |- context [i_commit ?w] =>
      destruct (i_commit w) as [[]|?] eqn:? end ].

Ltac init_paths db :=
  destruct db as [[[? ?]|] [?|]]; unfold_init;
  repeat next_init; reduce_init.

Ltac not_in H :=
  repeat (apply elem_of_cons in H as [H|H]; [discriminate H|]);
  by apply elem_of_nil in H.

Lemma run_init_tables url pics w db :
  (run_init url pics w db).2 = Ok tt →
  tbl_messages (run_init url pics w db).1.1
  = Some (default ([], 1) (tbl_messages db))
  ∧ tbl_users (run_init url pics w db).1.1
    = Some (default ∅ (tbl_users db))
  ∧ is_Some (store_of (run_init url pics w db).1.1).
Proof.
  init_paths db; intros H; try discriminate H; by repeat split.
Qed.

(** X24: when [init_db] returns, both tables are there: a table that was
    there keeps its rows, a table that was missing is empty (and the
    sequence of [messages] starts at 1), and the handler has a store to
    work on. *)
Theorem init_db_creates_missing_tables url pics w db :
  (run_init url pics w db).2 = Ok tt →
  tbl_messages (run_init url pics w db).1.1
  = Some (default ([], 1) (tbl_messages db))
  ∧ tbl_users (run_init url pics w db).1.1
    = Some (default ∅ (tbl_users db))
  ∧ is_Some (store_of (run_init url pics w db).1.1).
Proof. apply run_init_tables. Qed.

Lemma init_db_creates_missing_tables_witness :
  tbl_messages (run_init url0 "/app/pics" iw_ok db_users_only).1.1
  = Some ([], 1)
  ∧ tbl_users (run_init url0 "/app/pics" iw_ok db_users_only).1.1
    = Some {[ "ada99" := true ]}
  ∧ is_Some (store_of (run_init url0 "/app/pics" iw_ok db_users_only).1.1).
Proof.
  apply (init_db_creates_missing_tables url0 "/app/pics" iw_ok db_users_only).
  reflexivity.
Defined.

(** X25: [init_db] is idempotent: run again on the database it returned
    with, with a store that answers, it returns, creates no table and
    leaves the database as it is. *)
Theorem init_db_idempotent url pics w db w' :
  (run_init url pics w db).2 = Ok tt →
  (i_exists w' = true ∨ i_makedirs w' = Ok tt) →
  i_connect w' = Ok tt → i_probe_messages w' = Ok tt →
  i_probe_users w' = Ok tt → i_commit w' = Ok tt →
  let db' := (run_init url pics w db).1.1 in
  (run_init url pics w' db').1.1 = db'
  ∧ (run_init url pics w' db').2 = Ok tt
  ∧ ∀ table, ICreate table ∉ (run_init url pics w' db').1.2.
Proof.
  intros H Hdir Hc Hpm Hpu Hcm db'.
  destruct (run_init_tables _ _ _ _ H) as (Hm & Hu & _).
  assert (Hurl : truthy url = true).
  { clear -H. revert H. init_paths db; by intros H. }
  fold db' in Hm, Hu. clearbody db'. clear H.
  destruct db' as [tm tu]. cbn [tbl_messages tbl_users] in Hm, Hu.
  subst tm tu. unfold_init. rewrite Hurl, Hc, Hpm, Hpu, Hcm.
  destruct Hdir as [Hd|Hd]; [rewrite Hd|destruct (i_exists w'); rewrite ?Hd];
    reduce_init; (split; [done|]); (split; [done|]);
    intros table Hin; not_in Hin.
Qed.

Lemma init_db_idempotent_witness :
  (run_init url0 "/app/pics" iw_ok
     (run_init url0 "/app/pics" iw_ok db_empty).1.1).1.1
  = (run_init url0 "/app/pics" iw_ok db_empty).1.1
  ∧ (run_init url0 "/app/pics" iw_ok
       (run_init url0 "/app/pics" iw_ok db_empty).1.1).2 = Ok tt
  ∧ ∀ table,
      ICreate table
      ∉ (run_init url0 "/app/pics" iw_ok
           (run_init url0 "/app/pics" iw_ok db_empty).1.1).1.2.
Proof.
  apply (init_db_idempotent url0 "/app/pics" iw_ok db_empty iw_ok);
    first [reflexivity | by right].
Defined.

(** X26: [init_db] is all or nothing.  It returns only with a
    [DATABASE_URL] and after the commit; otherwise the database is as it
    was committed before, and the process exits, or the failure of
    [os.makedirs] leaves the function.  Without a [DATABASE_URL] the
    store is never asked. *)
Theorem init_db_all_or_nothing url pics w db :
  match (run_init url pics w db).2 with
  | Ok _ =>
      truthy url = true
      ∧ ICommit ∈ (run_init url pics w db).1.2
      ∧ last (run_init url pics w db).1.2
        = Some (IPrint "Database initialized successfully.")
  | Raise e =>
      (run_init url pics w db).1.1 = db
      ∧ (e = system_exit ∨ (i_exists w = false ∧ i_makedirs w = Raise e))
  end
  ∧ (truthy url = false → IConnect ∉ (run_init url pics w db).1.2).
Proof.
  init_paths db;
    (split;
     [ first [ by auto
             | split; [done|]; split; [by repeat constructor|done] ]
     | intros Hu Hin; first [discriminate Hu | not_in Hin] ]).
Qed.

End InitFacts.
